(** * LinkedIn login automation (Automation/LinkedIn/app.py)

    A shallow embedding of [LinkedInBot] and [main], and the properties
    of credential validation, the login flow and session release. *)

From Stdlib Require Import String Ascii List Bool Arith NArith Lia.
From stdpp Require Import base strings gmap.
Import ListNotations.

Set Implicit Arguments.

(** ** Regular expressions, as used by [re.match]

    A Python [str] is a sequence of code points; [string] holds the code
    points below 256, and on those [\d] is exactly the range 0-9.  The
    engine below searches every way of matching, like the backtracking
    engine of [re]: only whether a match exists is observed by the
    program. *)

Module Re.

Inductive regex : Type :=
| Bol                                   (* ^ *)
| Eol                                   (* $ *)
| Cls (p : ascii -> bool)               (* one character of a class *)
| Seq (r1 r2 : regex)                   (* r1 r2 *)
| Alt (r1 r2 : regex)                   (* r1|r2 *)
| Rep (r : regex) (lo : nat) (hi : option nat).   (* r{lo,hi}, greedy *)

Definition Chr (c : ascii) : regex := Cls (Ascii.eqb c).
Definition Opt (r : regex) : regex := Rep r 0 (Some 1).        (* r? *)
Definition Plus (r : regex) : regex := Rep r 1 None.           (* r+ *)
Definition AtLeast (n : nat) (r : regex) : regex := Rep r n None.   (* r{n,} *)
Definition Between (lo hi : nat) (r : regex) : regex := Rep r lo (Some hi).

Definition in_range (lo hi c : ascii) : bool :=
  ((N_of_ascii lo <=? N_of_ascii c) && (N_of_ascii c <=? N_of_ascii hi))%N.

Definition one_of (cs : list ascii) (c : ascii) : bool :=
  existsb (Ascii.eqb c) cs.

(** [\d], [a-z], [A-Z].  Strings are modelled with 8-bit characters, the
    code points below 256, among which [\d] matches 0-9 and nothing else.
    On a Python [str], [\d] also matches the decimal digits of the other
    scripts; these strings cannot hold them, so an identifier written
    with such digits is outside the model. *)
Definition digit : ascii -> bool := in_range "0" "9".
Definition lower : ascii -> bool := in_range "a" "z".
Definition upper : ascii -> bool := in_range "A" "Z".
Definition alpha (c : ascii) : bool := lower c || upper c.

(** [$] without MULTILINE: at the end of the string, or just before a
    newline that is the last character. *)
Definition at_end (rest : list ascii) : bool :=
  match rest with
  | [] => true
  | [c] => Ascii.eqb c "010"
  | _ => false
  end.

Definition may_repeat (n : nat) (hi : option nat) : bool :=
  match hi with
  | None => true
  | Some h => n <? h
  end.

Definition cont : Type := nat -> list ascii -> bool.

(** The loop of a quantifier: [n] iterations are done; try one more, then
    fall back to the continuation.  An iteration of a well-formed body
    consumes a character, so [fuel] = the remaining length is enough
    (lemma [rep_loop_spec]). *)
Fixpoint rep_loop (body : nat -> list ascii -> cont -> bool)
    (lo : nat) (hi : option nat) (k : cont)
    (fuel n pos : nat) (s : list ascii) : bool :=
  (may_repeat n hi &&
   match fuel with
   | O => false
   | S fuel' => body pos s (rep_loop body lo hi k fuel' (S n))
   end)
  || ((lo <=? n) && k pos s).

(** [m r pos s k]: can [r] match a prefix of [s], which starts at offset
    [pos] of the subject, so that [k] accepts what follows? *)
Fixpoint m (r : regex) (pos : nat) (s : list ascii) (k : cont) : bool :=
  match r with
  | Bol => (pos =? 0) && k pos s
  | Eol => at_end s && k pos s
  | Cls p =>
      match s with
      | c :: s' => p c && k (S pos) s'
      | [] => false
      end
  | Seq r1 r2 => m r1 pos s (fun pos' s' => m r2 pos' s' k)
  | Alt r1 r2 => m r1 pos s k || m r2 pos s k
  | Rep r' lo hi => rep_loop (m r') lo hi k (length s) 0 pos s
  end.

(** [re.match(pattern, s)] is not [None]: the pattern matches at offset 0;
    the match may end anywhere. *)
Definition re_match (pattern : regex) (s : string) : bool :=
  m pattern 0 (list_ascii_of_string s) (fun _ _ => true).

(** *** Denotation: which substrings a pattern matches, in context *)

Definition within (n : nat) (hi : option nat) : Prop :=
  match hi with
  | None => True
  | Some h => n <= h
  end.

Fixpoint iter (D : nat -> list ascii -> list ascii -> Prop)
    (n pos : nat) (a rest : list ascii) : Prop :=
  match n with
  | O => a = []
  | S n' => exists a1 a2, a = a1 ++ a2 /\ D pos a1 (a2 ++ rest)
                          /\ iter D n' (pos + length a1) a2 rest
  end.

(** [den r pos a rest]: [r] matches exactly [a], found at offset [pos]
    and followed by [rest]. *)
Fixpoint den (r : regex) (pos : nat) (a rest : list ascii) : Prop :=
  match r with
  | Bol => pos = 0 /\ a = []
  | Eol => a = [] /\ at_end rest = true
  | Cls p => exists c, a = [c] /\ p c = true
  | Seq r1 r2 => exists a1 a2, a = a1 ++ a2 /\ den r1 pos a1 (a2 ++ rest)
                               /\ den r2 (pos + length a1) a2 rest
  | Alt r1 r2 => den r1 pos a rest \/ den r2 pos a rest
  | Rep r' lo hi => exists n, lo <= n /\ within n hi /\ iter (den r') n pos a rest
  end.

(** A pattern that cannot match the empty string. *)
Fixpoint consuming (r : regex) : bool :=
  match r with
  | Bol | Eol => false
  | Cls _ => true
  | Seq r1 r2 => consuming r1 || consuming r2
  | Alt r1 r2 => consuming r1 && consuming r2
  | Rep r' lo _ => (0 <? lo) && consuming r'
  end.

(** Every quantified sub-pattern consumes a character per iteration. *)
Fixpoint wf (r : regex) : bool :=
  match r with
  | Bol | Eol | Cls _ => true
  | Seq r1 r2 | Alt r1 r2 => wf r1 && wf r2
  | Rep r' _ _ => consuming r' && wf r'
  end.

End Re.

(** ** Python values, the browser driver, and effects *)

(** An exception object: [except Exception] intercepts it only when it is
    an instance of [Exception] (KeyboardInterrupt and SystemExit are not). *)
Record exn : Type := MkExn {
  exn_class : string;
  exn_is_Exception : bool;
  exn_str : string          (* str(e) *)
}.

Inductive result (A : Type) : Type :=
| Ok (a : A)
| Raise (e : exn).
Arguments Ok {A} a.
Arguments Raise {A} e.

Definition handle : Type := nat.      (* a WebDriver session *)
Definition elem : Type := nat.        (* a WebElement *)

Inductive By : Type := NAME | ID | XPATH.
Definition locator : Type := (By * string)%type.

(** Objects of [selenium.webdriver.support.expected_conditions], indexed
    by what [until] returns once they hold. *)
Inductive cond : Type -> Type :=
| UrlContains (s : string) : cond bool
| PresenceOfElementLocated (l : locator) : cond elem.

(** Calls that leave the program: the driver manager, the browser and the
    clock.  Each one either returns or raises. *)
Inductive call : Type -> Type :=
| ChromeDriverInstall : call string
| ChromeStart (service_path : string) (arguments : list string) : call handle
| Get (d : handle) (url : string) : call unit
| Until (d : handle) (timeout : nat) {A : Type} (method : cond A) : call A
| FindElement (d : handle) (l : By) (value : string) : call elem
| Clear (e : elem) : call unit
| SendKeys (e : elem) (text : string) : call unit
| Click (e : elem) : call unit
| CurrentUrl (d : handle) : call string
| Quit (d : handle) : call unit
| Sleep (seconds : nat) : call unit.

Inductive level : Type := INFO | WARNING | ERROR.

(** What the run does, in order. *)
Inductive event : Type :=
| ECall {A : Type} (c : call A) (r : result A)    (* a call and its outcome *)
| ELog (lvl : level) (msg : string)               (* a line of the log *)
| ECond {A : Type} (c : cond A).                  (* an EC.* object is built *)

(** The values an [or] of two conditions ranges over. *)
Inductive pyobj : Type :=
| Callable {A : Type} (c : cond A).

(** A callable defines neither [__bool__] nor [__len__]: it is true. *)
Definition truthy (o : pyobj) : bool :=
  match o with
  | Callable _ => true
  end.

(** The environment: a state of the outside world and its answer to every
    call. *)
Class Driver (W : Type) : Type :=
  respond : forall A : Type, call A -> W -> result A * W.
Arguments respond {W _ A} c w.

Record out (W S A : Type) : Type := Out {
  res : result A;            (* returned or raised *)
  locals : S;                (* the caller's local variables *)
  world : W;
  emitted : list event
}.
Arguments Out {W S A} res locals world emitted.

Definition M (W S A : Type) : Type := S -> W -> out W S A.

Section Effects.
Context {W : Type} `{Driver W} {S : Type}.

Definition ret {A} (a : A) : M W S A := fun s w => Out (Ok a) s w [].

Definition raise {A} (e : exn) : M W S A := fun s w => Out (Raise e) s w [].

Definition bind {A B} (c : M W S A) (f : A -> M W S B) : M W S B := fun s w =>
  let o := c s w in
  match res o with
  | Ok a =>
      let o' := f a (locals o) (world o) in
      Out (res o') (locals o') (world o') (emitted o ++ emitted o')
  | Raise e => Out (Raise e) (locals o) (world o) (emitted o)
  end.

Definition emit (ev : event) : M W S unit := fun s w => Out (Ok tt) s w [ev].

Definition perform {A} (c : call A) : M W S A := fun s w =>
  let rw := respond c w in
  Out (fst rw) s (snd rw) [ECall c (fst rw)].

Definition get_local : M W S S := fun s w => Out (Ok s) s w [].
Definition set_local (s' : S) : M W S unit := fun _ w => Out (Ok tt) s' w [].

(** try: body / except Exception as e: handler e *)
Definition try_except {A} (body : M W S A) (handler : exn -> M W S A) : M W S A :=
  fun s w =>
  let o := body s w in
  match res o with
  | Ok _ => o
  | Raise e =>
      if exn_is_Exception e then
        let o' := handler e (locals o) (world o) in
        Out (res o') (locals o') (world o') (emitted o ++ emitted o')
      else o
  end.

(** try: body / finally: cleanup.  What cleanup raises replaces the
    outcome of body. *)
Definition try_finally {A} (body : M W S A) (cleanup : M W S unit) : M W S A :=
  fun s w =>
  let o := body s w in
  let o' := cleanup (locals o) (world o) in
  Out (match res o' with Ok _ => res o | Raise e => Raise e end)
      (locals o') (world o') (emitted o ++ emitted o').

End Effects.

Declare Scope py_scope.
Delimit Scope py_scope with py.
Notation "x <- c ;; k" := (bind c (fun x => k))
  (at level 100, c at next level, right associativity) : py_scope.
Notation "c ;; k" := (bind c (fun _ => k))
  (at level 100, right associativity) : py_scope.
Open Scope py_scope.

(** ** The program *)

Import Re.

(** [needle in haystack] on [str] *)
Fixpoint str_in (needle haystack : string) : bool :=
  String.prefix needle haystack ||
  match haystack with
  | EmptyString => false
  | String _ rest => str_in needle rest
  end.

(** [[a-zA-Z0-9._%+-]] and [[a-zA-Z0-9.-]] *)
Definition local_class (c : ascii) : bool :=
  alpha c || digit c || one_of ["."; "_"; "%"; "+"; "-"]%char c.
Definition domain_class (c : ascii) : bool :=
  alpha c || digit c || one_of ["."; "-"]%char c.

(** r'^(\+?\d{10,14}|[a-zA-Z0-9._%+-]+@[a-zA-Z0-9.-]+\.[a-zA-Z]{2,})$' *)
Definition phone_alternative : regex :=
  Seq (Opt (Chr "+")) (Between 10 14 (Cls digit)).
Definition email_alternative : regex :=
  Seq (Plus (Cls local_class))
 (Seq (Chr "@")
 (Seq (Plus (Cls domain_class))
 (Seq (Chr ".")
      (AtLeast 2 (Cls alpha))))).
Definition email_phone_pattern : regex :=
  Seq Bol (Seq (Alt phone_alternative email_alternative) Eol).

Record LinkedInBot : Type := {
  username : string;
  password : string;
  driver : option handle       (* None: no session *)
}.

(** The arguments added to ChromeOptions, in order. *)
Definition chrome_arguments : list string :=
  ["--start-maximized"; "--disable-extensions"; "--disable-gpu";
   "--no-sandbox"; "--disable-dev-shm-usage"]%string.

(** '//button[@data-litms-control-urn="login-submit" and @type="submit"]' *)
Definition dquote : string := String (ascii_of_nat 34) EmptyString.
Definition login_submit_xpath : string :=
  "//button[@data-litms-control-urn=" ++ dquote ++ "login-submit" ++ dquote
  ++ " and @type=" ++ dquote ++ "submit" ++ dquote ++ "]".

(** [os.getenv(key, default)] *)
Definition os_getenv (environ : gmap string string) (key dflt : string) : string :=
  default dflt (environ !! key).

Section Program.
Context {W : Type} `{Driver W}.

Section Methods.
Context {S : Type}.

Definition logger_info (msg : string) : M W S unit := emit (ELog INFO msg).
Definition logger_warning (msg : string) : M W S unit := emit (ELog WARNING msg).
Definition logger_error (msg : string) : M W S unit := emit (ELog ERROR msg).

Definition EC_url_contains (url : string) : M W S (cond bool) :=
  emit (ECond (UrlContains url)) ;; ret (UrlContains url).
Definition EC_presence_of_element_located (l : locator) : M W S (cond elem) :=
  emit (ECond (PresenceOfElementLocated l)) ;; ret (PresenceOfElementLocated l).

(** [x or y]: [y] is evaluated only when the value of [x] is false. *)
Definition py_or {A B} (x : M W S (cond A)) (y : M W S (cond B)) : M W S pyobj :=
  a <- x ;;
  if truthy (Callable a) then ret (Callable a)
  else b <- y ;; ret (Callable b).

(** [WebDriverWait(d, timeout).until(method)], the value dropped *)
Definition until_ (d : handle) (timeout : nat) (method : pyobj) : M W S unit :=
  match method with
  | Callable c => perform (Until d timeout c) ;; ret tt
  end.

(** [self.driver.<attr>]: None has no attributes. *)
Definition self_driver (self : LinkedInBot) (attr : string) : M W S handle :=
  match driver self with
  | Some d => ret d
  | None =>
      raise (MkExn "AttributeError" true
               ("'NoneType' object has no attribute '" ++ attr ++ "'"))
  end.

(** [LinkedInBot.__init__] *)
Definition LinkedInBot_init (username password : string) : M W S LinkedInBot :=
  path <- perform ChromeDriverInstall ;;
  d <- perform (ChromeStart path chrome_arguments) ;;
  ret {| username := username; password := password; driver := Some d |}.

Definition validate_credentials (self : LinkedInBot) : M W S bool :=
  if negb (re_match email_phone_pattern (username self)) then
    logger_error "Invalid email or phone number format" ;;
    ret false
  else if String.length (password self) <? 8 then
    logger_error "Password too short" ;;
    ret false
  else
    ret true.

Definition login (self : LinkedInBot) : M W S bool :=
  try_except
    (valid <- validate_credentials self ;;
     if negb valid then ret false else
     d <- self_driver self "get" ;;
     perform (Get d "https://www.linkedin.com/login") ;;
     logger_info "Navigated to LinkedIn login page" ;;
     located <- EC_presence_of_element_located (NAME, "session_key"%string) ;;
     username_field <- perform (Until d 10 located) ;;
     perform (Clear username_field) ;;
     perform (SendKeys username_field (username self)) ;;
     logger_info "Username entered" ;;
     password_field <- perform (FindElement d NAME "session_password") ;;
     perform (Clear password_field) ;;
     perform (SendKeys password_field (password self)) ;;
     logger_info "Password entered" ;;
     login_button <- perform (FindElement d XPATH login_submit_xpath) ;;
     perform (Click login_button) ;;
     logger_info "Sign in button clicked" ;;
     method <- py_or (EC_url_contains "feed")
                     (EC_presence_of_element_located (ID, "challenge"%string)) ;;
     until_ d 20 method ;;
     current_url <- perform (CurrentUrl d) ;;
     if str_in "feed" current_url then
       logger_info "Successfully logged in!" ;;
       ret true
     else
       logger_warning "Login may require additional verification" ;;
       ret false)
    (fun e =>
       logger_error ("Login failed: " ++ exn_str e) ;;
       ret false).

Definition close (self : LinkedInBot) : M W S unit :=
  match driver self with
  | Some d => perform (Quit d)
  | None => ret tt
  end ;;
  logger_info "Browser session closed".

End Methods.

(** [main]; its one local variable is [bot], None or the agent. *)
Definition main (environ : gmap string string) : M W (option LinkedInBot) unit :=
  let USERNAME := os_getenv environ "LINKEDIN_USERNAME" "your_email_or_phone" in
  let PASSWORD := os_getenv environ "LINKEDIN_PASSWORD" "your_password" in
  set_local None ;;
  try_finally
    (try_except
       (b <- LinkedInBot_init USERNAME PASSWORD ;;
        set_local (Some b) ;;
        login_success <- login b ;;
        if login_success then
          perform (Sleep 10)
        else
          logger_warning "Login unsuccessful or requires additional verification")
       (fun e => logger_error ("Unexpected error: " ++ exn_str e)))
    (bot <- get_local ;;
     match bot with
     | Some b => close b
     | None => ret tt
     end).

End Program.

(** ** Observations on a run *)

Definition is_fault (ev : event) : bool :=
  match ev with
  | ECall _ (Raise _) => true
  | _ => false
  end.

Definition is_call (ev : event) : bool :=
  match ev with
  | ECall _ _ => true
  | _ => false
  end.

Definition is_error_log (ev : event) : bool :=
  match ev with
  | ELog ERROR _ => true
  | _ => false
  end.

(** The session-release call, [driver.quit()]. *)
Definition is_quit (ev : event) : bool :=
  match ev with
  | ECall c _ => match c with Quit _ => true | _ => false end
  | _ => false
  end.

(** The browser was started: the agent's construction returned. *)
Definition is_started (ev : event) : bool :=
  match ev with
  | ECall c (Ok _) => match c with ChromeStart _ _ => true | _ => false end
  | _ => false
  end.

(** The challenge-element condition of the outcome wait is built. *)
Definition is_challenge_cond (ev : event) : bool :=
  match ev with
  | ECond c =>
      match c with
      | PresenceOfElementLocated (ID, v) => String.eqb v "challenge"
      | _ => false
      end
  | _ => false
  end.

Definition count (f : event -> bool) (evs : list event) : nat :=
  length (List.filter f evs).

(** A fault that [except Exception] intercepts (or no fault at all). *)
Definition fault_is_Exception (ev : event) : bool :=
  match ev with
  | ECall _ (Raise e) => exn_is_Exception e
  | _ => true
  end.

(** [driver.quit()] raised. *)
Definition is_quit_fault (ev : event) : bool := is_quit ev && is_fault ev.

(** The line logged by the handler of [main]. *)
Definition is_unexpected_error_log (ev : event) : bool :=
  match ev with
  | ELog ERROR msg => String.prefix "Unexpected error: " msg
  | _ => false
  end.

(** The URL a successful read of [driver.current_url] returned. *)
Definition url_read (ev : event) : option string :=
  match ev with
  | ECall c (Ok v) =>
      match c in call T return T -> option string with
      | CurrentUrl _ => fun url => Some url
      | _ => fun _ => None
      end v
  | _ => None
  end.

Definition urls_read (evs : list event) : list string := omap url_read evs.

(** A wait is either the 10-unit wait for the username field or a 20-unit
    wait on the URL containing the post-login segment. *)
Definition wait_is_expected (ev : event) : bool :=
  match ev with
  | ECall c _ =>
      match c with
      | Until _ timeout method =>
          match method with
          | UrlContains seg => (timeout =? 20) && String.eqb seg "feed"
          | PresenceOfElementLocated (l, v) =>
              (timeout =? 10) && String.eqb v "session_key"
          end
      | _ => true
      end
  | _ => true
  end.

(** The outcome wait: a 20-unit [until]. *)
Definition is_outcome_wait (ev : event) : bool :=
  match ev with
  | ECall c _ => match c with Until _ timeout _ => timeout =? 20 | _ => false end
  | _ => false
  end.

Definition newline : string := String "010" EmptyString.

(** ** The identifier shapes, in the words of the specification *)

(** Optional leading [+], then 10 to 14 digits. *)
Definition is_phone (s : list ascii) : Prop :=
  exists sign digits,
    s = sign ++ digits /\ (sign = [] \/ sign = ["+"%char]) /\
    10 <= length digits <= 14 /\ forallb digit digits = true.

(** Local part, [@], domain, [.], a top-level domain of 2 or more letters. *)
Definition is_email (s : list ascii) : Prop :=
  exists loc dom tld,
    s = loc ++ "@"%char :: dom ++ "."%char :: tld /\
    loc <> [] /\ forallb local_class loc = true /\
    dom <> [] /\ forallb domain_class dom = true /\
    2 <= length tld /\ forallb alpha tld = true.

Definition well_formed_identifier (u : string) : Prop :=
  is_phone (list_ascii_of_string u) \/ is_email (list_ascii_of_string u).

(** ** A scripted environment, to run the program on

    Every call succeeds with a fixed answer, except the call number
    [fault_at], which raises [fault]; the browser shows [page_url]. *)

Module Sim.

Record world : Type := {
  clock : nat;                  (* calls answered so far *)
  fault_at : option nat;
  fault : exn;
  page_url : string
}.

Definition tick (w : world) : world :=
  {| clock := Datatypes.S (clock w); fault_at := fault_at w;
     fault := fault w; page_url := page_url w |}.

Definition holds {A : Type} (c : cond A) : A :=
  match c in cond T return T with
  | UrlContains _ => true
  | PresenceOfElementLocated _ => 7
  end.

Definition answer {A : Type} (c : call A) (w : world) : A :=
  match c in call T return T with
  | ChromeDriverInstall => "/usr/local/bin/chromedriver"%string
  | ChromeStart _ _ => 1
  | Get _ _ => tt
  | Until _ _ method => holds method
  | FindElement _ _ _ => 8
  | Clear _ => tt
  | SendKeys _ _ => tt
  | Click _ => tt
  | CurrentUrl _ => page_url w
  | Quit _ => tt
  | Sleep _ => tt
  end.

#[global] Instance sim_driver : Driver world := fun A c w =>
  (match fault_at w with
   | Some n => if n =? clock w then Raise (fault w) else Ok (answer c w)
   | None => Ok (answer c w)
   end, tick w).

Definition TimeoutException : exn := MkExn "TimeoutException" true "Message: ".
Definition KeyboardInterrupt : exn :=
  MkExn "KeyboardInterrupt" false EmptyString.

(** No fault; the browser ends on [url]. *)
Definition healthy (url : string) : world :=
  {| clock := 0; fault_at := None; fault := TimeoutException; page_url := url |}.

(** The [n]-th call (from 0) raises [e]. *)
Definition failing (n : nat) (e : exn) (url : string) : world :=
  {| clock := 0; fault_at := Some n; fault := e; page_url := url |}.

Definition bot (u p : string) : LinkedInBot :=
  {| username := u; password := p; driver := Some 1 |}.

End Sim.

(** ** Notions used to reason about the program *)

Unset Implicit Arguments.

(** The matcher [body] finds exactly the matches that [D] denotes. *)
Definition realises (body : nat -> list ascii -> Re.cont -> bool)
    (D : nat -> list ascii -> list ascii -> Prop) : Prop :=
  forall pos s k,
    body pos s k = true <->
    exists a b, s = a ++ b /\ D pos a b /\ k (pos + length a) b = true.

(** [wp c Q s w]: the outcome of running [c] from [s] and [w] satisfies [Q]. *)
Definition wp {W S A : Type} (c : M W S A) (Q : out W S A -> Prop)
    (s : S) (w : W) : Prop :=
  Q (c s w).

(** What [main] needs to know of a call to [login]. *)
Definition login_post (r : result bool) (evs : list event) : Prop :=
  count is_quit evs = 0 /\
  existsb is_started evs = false /\
  existsb is_quit_fault evs = false /\
  count is_unexpected_error_log evs = 0 /\
  (forallb fault_is_Exception evs = true -> exists b, r = Ok b).

(** ** More observations on a run *)

Definition is_sleep (ev : event) : bool :=
  match ev with
  | ECall c _ => match c with Sleep _ => true | _ => false end
  | _ => false
  end.

(** [driver.get(...)] *)
Definition is_navigation (ev : event) : bool :=
  match ev with
  | ECall c _ => match c with Get _ _ => true | _ => false end
  | _ => false
  end.

(** The driver manager or the browser start is called. *)
Definition is_launch (ev : event) : bool :=
  match ev with
  | ECall c _ =>
      match c with
      | ChromeDriverInstall | ChromeStart _ _ => true
      | _ => false
      end
  | _ => false
  end.

Definition is_success_log (ev : event) : bool :=
  match ev with
  | ELog INFO msg => String.eqb msg "Successfully logged in!"
  | _ => false
  end.

Definition is_verification_warning (ev : event) : bool :=
  match ev with
  | ELog WARNING msg => String.eqb msg "Login may require additional verification"
  | _ => false
  end.

Definition is_unsuccessful_warning (ev : event) : bool :=
  match ev with
  | ELog WARNING msg =>
      String.eqb msg "Login unsuccessful or requires additional verification"
  | _ => false
  end.

(** The text a call of [send_keys] was given. *)
Definition key_sent (ev : event) : option string :=
  match ev with
  | ECall c _ => match c with SendKeys _ text => Some text | _ => None end
  | _ => None
  end.

Definition keys_sent (evs : list event) : list string := omap key_sent evs.

(** The session a successful start of the browser returned. *)
Definition started_handle (ev : event) : option handle :=
  match ev with
  | ECall c (Ok v) =>
      match c in call T return T -> option handle with
      | ChromeStart _ _ => fun d => Some d
      | _ => fun _ => None
      end v
  | _ => None
  end.

(** The session [quit] was called on. *)
Definition quit_handle (ev : event) : option handle :=
  match ev with
  | ECall c _ => match c with Quit d => Some d | _ => None end
  | _ => None
  end.

Definition started_handles (evs : list event) : list handle := omap started_handle evs.
Definition quit_handles (evs : list event) : list handle := omap quit_handle evs.

(** The calls of a run, in order. *)
Definition calls (evs : list event) : list event := List.filter is_call evs.

(** The last call of the run satisfies [f]. *)
Definition last_call_is (f : event -> bool) (evs : list event) : bool :=
  match last (calls evs) with
  | Some ev => f ev
  | None => false
  end.

(** The first call of the run satisfies [f]. *)
Definition first_call_is (f : event -> bool) (evs : list event) : bool :=
  match calls evs with
  | ev :: _ => f ev
  | [] => false
  end.

(** The navigation to the login page returned. *)
Definition is_login_page_loaded (ev : event) : bool :=
  match ev with
  | ECall c (Ok _) =>
      match c with
      | Get _ url => String.eqb url "https://www.linkedin.com/login"
      | _ => false
      end
  | _ => false
  end.

(** The characters of the two character classes and of [@]; a final
    newline apart, an accepted identifier has no other. *)
Definition identifier_char (c : ascii) : bool :=
  local_class c || Ascii.eqb c "@" || Ascii.eqb c "010".

(** What the identifier check lets through: a well-formed identifier, or
    one followed by a single newline. *)
Definition accepted_identifier (u : string) : Prop :=
  well_formed_identifier u \/
  exists v, u = (v ++ newline)%string /\ well_formed_identifier v.

(** The last event of the run satisfies [f]. *)
Definition last_event_is (f : event -> bool) (evs : list event) : bool :=
  match last evs with
  | Some ev => f ev
  | None => false
  end.

(** What [main] can rely on after a call to [login] on [self] that
    returned or raised [r] having emitted [evs]. *)
Definition login_summary (self : LinkedInBot) (r : result bool)
    (evs : list event) : Prop :=
  count is_sleep evs = 0 /\
  count is_unsuccessful_warning evs = 0 /\
  count is_unexpected_error_log evs = 0 /\
  started_handles evs = [] /\
  quit_handles evs = [] /\
  count is_success_log evs = (match r with Ok true => 1 | _ => 0 end) /\
  (forallb fault_is_Exception evs = true -> exists b, r = Ok b) /\
  (forallb fault_is_Exception evs = false -> exists e, r = Raise e) /\
  (forall e, r = Raise e -> exn_is_Exception e = false) /\
  existsb is_started evs = false /\
  (re_match email_phone_pattern (username self) = false ->
   r = Ok false /\ count is_navigation evs = 0 /\ keys_sent evs = []) /\
  (re_match email_phone_pattern (username self) = true ->
   8 <= String.length (password self) ->
   driver self <> None ->
   existsb is_fault evs = false ->
   count is_navigation evs = 1 /\
   keys_sent evs = [username self; password self]).

(** ** Faults and verdicts, observed *)

(** The exception a call raised. *)
Definition fault_of (ev : event) : option exn :=
  match ev with
  | ECall _ (Raise e) => Some e
  | _ => None
  end.

Definition faults (evs : list event) : list exn := omap fault_of evs.









(** A character of the ASCII range, on which [\d] is 0-9 in Python too. *)
Definition is_ascii (c : ascii) : bool := (N_of_ascii c <? 128)%N.



(** ** The matcher finds exactly the denoted matches *)

Section Matcher.

Lemma iter_nonempty D n pos a rest :
  (forall p x r, D p x r -> x <> []) -> 0 < n -> iter D n pos a rest -> a <> [].
Proof.
  intros HD Hn Hit. destruct n as [|n]; [lia|].
  destruct Hit as (a1 & a2 & -> & H1 & _).
  apply HD in H1. destruct a1; [congruence | discriminate].
Qed.

Lemma consuming_den r :
  consuming r = true -> forall pos a rest, den r pos a rest -> a <> [].
Proof.
  induction r as [| |p|r1 IH1 r2 IH2|r1 IH1 r2 IH2|r IH lo hi]; simpl; intros Hc pos a rest Hd.
  - discriminate.
  - discriminate.
  - destruct Hd as (c & -> & _). discriminate.
  - destruct Hd as (a1 & a2 & -> & H1 & H2).
    apply orb_true_iff in Hc as [Hc|Hc].
    + apply IH1 in H1; auto. destruct a1; [congruence | discriminate].
    + apply IH2 in H2; auto. destruct a1; simpl; [assumption | discriminate].
  - apply andb_true_iff in Hc as [Hc1 Hc2].
    destruct Hd as [Hd|Hd]; eauto.
  - apply andb_true_iff in Hc as [Hlo Hc].
    apply Nat.ltb_lt in Hlo.
    destruct Hd as (n & Hn & _ & Hit).
    eapply iter_nonempty; [ | | exact Hit]; [eauto | lia].
Qed.

Lemma may_repeat_within n hi : may_repeat n hi = true <-> within (S n) hi.
Proof.
  destruct hi as [h|]; simpl; [|tauto].
  rewrite Nat.ltb_lt. lia.
Qed.

Lemma within_le n n' hi : n <= n' -> within n' hi -> within n hi.
Proof. destruct hi; simpl; lia. Qed.

Lemma rep_loop_spec body D lo hi k :
  realises body D ->
  (forall p x r, D p x r -> x <> []) ->
  forall fuel n pos s,
    length s <= fuel -> within n hi ->
    rep_loop body lo hi k fuel n pos s = true <->
    exists j a b, s = a ++ b /\ iter D j pos a b /\
                  lo <= n + j /\ within (n + j) hi /\ k (pos + length a) b = true.
Proof.
  intros Hbody Hne. induction fuel as [|fuel IH]; intros n pos s Hlen Hw.
  - destruct s; [|simpl in Hlen; lia].
    simpl. rewrite andb_false_r. simpl. rewrite andb_true_iff, Nat.leb_le.
    split.
    + intros [Hlo Hk]. exists 0, [], []. simpl.
      rewrite !Nat.add_0_r. auto.
    + intros (j & a & b & Hs & Hit & Hlo & Hwj & Hk).
      symmetry in Hs. apply app_eq_nil in Hs as [-> ->].
      destruct j as [|j].
      * simpl in Hk. rewrite !Nat.add_0_r in *. auto.
      * exfalso. eapply iter_nonempty in Hit; eauto. lia.
  - simpl. rewrite orb_true_iff, !andb_true_iff, Nat.leb_le, may_repeat_within.
    split.
    + intros [[Hmore Hb] | [Hlo Hk]].
      * apply Hbody in Hb as (a1 & b1 & -> & HD & Hrest).
        assert (Ha1 : a1 <> []) by eauto.
        apply IH in Hrest; [| | assumption].
        2:{ rewrite length_app in Hlen. destruct a1; [congruence|]. simpl in Hlen. lia. }
        destruct Hrest as (j & a & b & -> & Hit & Hlo & Hwj & Hk).
        exists (S j), (a1 ++ a), b. rewrite <- app_assoc. split; [reflexivity|].
        split; [simpl; eauto 6|].
        rewrite length_app, Nat.add_assoc, <- plus_n_Sm. auto.
      * exists 0, [], s. simpl. rewrite !Nat.add_0_r. auto.
    + intros (j & a & b & -> & Hit & Hlo & Hwj & Hk).
      destruct j as [|j].
      * simpl in Hit. subst a. simpl in *. rewrite !Nat.add_0_r in *. auto.
      * left. destruct Hit as (a1 & a2 & -> & HD & Hit).
        assert (Ha1 : a1 <> []) by eauto.
        split; [eapply within_le; [|exact Hwj]; lia|].
        apply Hbody. exists a1, (a2 ++ b). rewrite <- app_assoc.
        split; [reflexivity|]. split; [assumption|].
        apply IH.
        { rewrite !length_app in Hlen. destruct a1; [congruence|].
          simpl in Hlen. rewrite length_app. lia. }
        { eapply within_le; [|exact Hwj]; lia. }
        exists j, a2, b. rewrite <- plus_n_Sm in Hlo, Hwj. simpl.
        rewrite length_app, Nat.add_assoc in Hk. auto.
Qed.

Lemma m_spec r : wf r = true -> realises (m r) (den r).
Proof.
  induction r as [| |p|r1 IH1 r2 IH2|r1 IH1 r2 IH2|r IH lo hi];
    simpl; intros Hwf pos s k.
  - rewrite andb_true_iff, Nat.eqb_eq. split.
    + intros [-> Hk]. exists [], s. simpl. auto.
    + intros (a & b & -> & [-> ->] & Hk). simpl in *. auto.
  - rewrite andb_true_iff. split.
    + intros [He Hk]. exists [], s. simpl. rewrite Nat.add_0_r. auto.
    + intros (a & b & -> & [-> He] & Hk). simpl in *.
      rewrite Nat.add_0_r in Hk. auto.
  - destruct s as [|c s'].
    + split; [discriminate|].
      intros (a & b & Hs & (c & -> & _) & _). discriminate.
    + rewrite andb_true_iff. split.
      * intros [Hp Hk]. exists [c], s'. simpl. rewrite Nat.add_1_r. eauto.
      * intros (a & b & Hs & (c' & -> & Hp) & Hk). simpl in *.
        injection Hs as -> ->. rewrite Nat.add_1_r in Hk. auto.
  - apply andb_true_iff in Hwf as [Hwf1 Hwf2].
    specialize (IH1 Hwf1). specialize (IH2 Hwf2). unfold realises in IH1, IH2.
    rewrite IH1. split.
    + intros (a1 & b1 & -> & H1 & Hm).
      apply IH2 in Hm as (a2 & b & -> & H2 & Hk).
      exists (a1 ++ a2), b. rewrite <- app_assoc. split; [reflexivity|].
      split; [eauto 6|]. rewrite length_app, Nat.add_assoc. assumption.
    + intros (a & b & -> & (a1 & a2 & -> & H1 & H2) & Hk).
      exists a1, (a2 ++ b). rewrite <- app_assoc. split; [reflexivity|].
      split; [assumption|]. apply IH2.
      exists a2, b. rewrite length_app, Nat.add_assoc in Hk. auto.
  - apply andb_true_iff in Hwf as [Hwf1 Hwf2].
    specialize (IH1 Hwf1). specialize (IH2 Hwf2). unfold realises in IH1, IH2.
    rewrite orb_true_iff, IH1, IH2. split.
    + intros [(a & b & Hs & Hd & Hk) | (a & b & Hs & Hd & Hk)];
        exists a, b; auto.
    + intros (a & b & Hs & [Hd|Hd] & Hk); [left|right]; exists a, b; auto.
  - apply andb_true_iff in Hwf as [Hc Hwf].
    rewrite (@rep_loop_spec (m r) (den r) lo hi k (IH Hwf) (consuming_den r Hc));
      [| lia | destruct hi; simpl; lia].
    simpl. split.
    + intros (j & a & b & Hs & Hit & Hlo & Hw & Hk). exists a, b. eauto 8.
    + intros (a & b & Hs & (j & Hlo & Hw & Hit) & Hk). exists j, a, b. auto.
Qed.

End Matcher.

(** ** What the pattern of [validate_credentials] matches *)

Section Pattern.

Lemma iter_cls p n pos a rest :
  iter (den (Cls p)) n pos a rest <-> length a = n /\ forallb p a = true.
Proof.
  revert pos a. induction n as [|n IH]; intros pos a; simpl.
  - split.
    + intros ->. auto.
    + intros [Hl _]. destruct a; [reflexivity | discriminate].
  - split.
    + intros (a1 & a2 & -> & (c & -> & Hc) & Hit).
      apply IH in Hit as [<- Hall]. simpl. rewrite Hc, Hall. auto.
    + intros [Hl Hall]. destruct a as [|c a]; [discriminate|].
      simpl in Hl, Hall. apply andb_true_iff in Hall as [Hc Hall].
      exists [c], a. split; [reflexivity|]. split; [eauto|].
      apply IH. split; [lia | assumption].
Qed.

Lemma den_rep_cls p lo hi pos a rest :
  den (Rep (Cls p) lo hi) pos a rest <->
  lo <= length a /\ within (length a) hi /\ forallb p a = true.
Proof.
  change (den (Rep (Cls p) lo hi) pos a rest)
    with (exists n, lo <= n /\ within n hi /\ iter (den (Cls p)) n pos a rest).
  split.
  - intros (n & Hlo & Hw & Hit). apply iter_cls in Hit as [<- Hall]. auto.
  - intros (Hlo & Hw & Hall). exists (length a).
    split; [assumption|]. split; [assumption|]. apply iter_cls. auto.
Qed.

Lemma den_chr c pos a rest : den (Chr c) pos a rest <-> a = [c].
Proof.
  unfold Chr. simpl. split.
  - intros (c' & -> & Heq). apply Ascii.eqb_eq in Heq. congruence.
  - intros ->. exists c. split; [reflexivity | apply Ascii.eqb_refl].
Qed.

Lemma den_opt_chr c pos a rest :
  den (Opt (Chr c)) pos a rest <-> a = [] \/ a = [c].
Proof.
  unfold Opt, Chr. rewrite den_rep_cls. simpl. split.
  - intros (_ & Hl & Hall). destruct a as [|x [|y a]]; simpl in *; [auto| |lia].
    right. rewrite andb_true_r in Hall. apply Ascii.eqb_eq in Hall. congruence.
  - intros [-> | ->]; simpl; [auto with arith|].
    rewrite Ascii.eqb_refl. auto with arith.
Qed.

Lemma den_phone pos a rest : den phone_alternative pos a rest <-> is_phone a.
Proof.
  unfold phone_alternative, is_phone, Between.
  change (den (Seq ?r1 ?r2) pos a rest)
    with (exists a1 a2, a = a1 ++ a2 /\ den r1 pos a1 (a2 ++ rest)
                        /\ den r2 (pos + length a1) a2 rest).
  split.
  - intros (a1 & a2 & -> & H1 & H2).
    apply den_opt_chr in H1. apply den_rep_cls in H2 as (Hlo & Hhi & Hall).
    simpl in Hhi. exists a1, a2. auto.
  - intros (a1 & a2 & -> & H1 & [Hlo Hhi] & Hall).
    exists a1, a2. split; [reflexivity|].
    split; [apply den_opt_chr; assumption|].
    apply den_rep_cls. simpl. auto.
Qed.

Lemma den_email pos a rest : den email_alternative pos a rest <-> is_email a.
Proof.
  unfold email_alternative, is_email, Plus, AtLeast.
  split.
  - intros (loc & a2 & -> & Hloc & at' & a3 & -> & Hat & dom & a4 & -> & Hdom
             & dot & tld & -> & Hdot & Htld).
    apply den_rep_cls in Hloc as (Hl1 & _ & Hl2).
    apply den_chr in Hat as ->. apply den_rep_cls in Hdom as (Hd1 & _ & Hd2).
    apply den_chr in Hdot as ->. apply den_rep_cls in Htld as (Ht1 & _ & Ht2).
    exists loc, dom, tld. simpl.
    repeat split; try assumption.
    + intros ->. simpl in Hl1. lia.
    + intros ->. simpl in Hd1. lia.
  - intros (loc & dom & tld & -> & Hl1 & Hl2 & Hd1 & Hd2 & Ht1 & Ht2).
    exists loc, ("@"%char :: dom ++ "."%char :: tld). split; [reflexivity|].
    split.
    { apply den_rep_cls. simpl. destruct loc; [congruence|]. simpl. auto with arith. }
    exists ["@"%char], (dom ++ "."%char :: tld). split; [reflexivity|].
    split; [apply den_chr; reflexivity|].
    exists dom, ("."%char :: tld). split; [reflexivity|].
    split.
    { apply den_rep_cls. simpl. destruct dom; [congruence|]. simpl. auto with arith. }
    exists ["."%char], tld. split; [reflexivity|].
    split; [apply den_chr; reflexivity|].
    apply den_rep_cls. simpl. auto.
Qed.

Lemma at_end_iff rest : at_end rest = true <-> rest = [] \/ rest = ["010"%char].
Proof.
  destruct rest as [|c [|c' rest]]; simpl.
  - tauto.
  - rewrite Ascii.eqb_eq. split; [intros ->; auto | intros [H|H]; congruence].
  - split; [discriminate | intros [H|H]; discriminate].
Qed.

Lemma email_phone_pattern_wf : wf email_phone_pattern = true.
Proof. reflexivity. Qed.

Lemma email_phone_pattern_spec (s : list ascii) :
  m email_phone_pattern 0 s (fun _ _ => true) = true <->
  exists u, (s = u \/ s = u ++ ["010"%char]) /\ (is_phone u \/ is_email u).
Proof.
  rewrite (m_spec email_phone_pattern email_phone_pattern_wf 0 s).
  unfold email_phone_pattern. split.
  - intros (a & b & -> & (a1 & a2 & -> & [_ ->] & u & a4 & -> & Hu & -> & He) & _).
    cbn [app] in *. rewrite app_nil_r.
    exists u. split.
    + apply at_end_iff in He as [-> | ->]; [left; apply app_nil_r | right; reflexivity].
    + destruct Hu as [Hu|Hu]; [left; apply den_phone in Hu | right; apply den_email in Hu];
        assumption.
  - intros (u & Hs & Hu).
    assert (Hb : exists b, s = u ++ b /\ at_end b = true).
    { destruct Hs as [-> | ->]; [exists [] | exists ["010"%char]];
        rewrite ?app_nil_r; split; reflexivity. }
    destruct Hb as (b & -> & Hb).
    exists u, b. split; [reflexivity|]. split; [|reflexivity].
    exists [], u. split; [reflexivity|]. split; [split; reflexivity|].
    exists u, []. split; [symmetry; apply app_nil_r|].
    split; [|split; [reflexivity | assumption]].
    simpl. destruct Hu as [Hu|Hu]; [left; apply den_phone | right; apply den_email];
      assumption.
Qed.

End Pattern.

(** ** A postcondition calculus for runs *)

Section Wp.
Context {W : Type} `{Driver W} {S : Type}.

Lemma wp_run {A} (c : M W S A) (Q : out W S A -> Prop) s w :
  wp c Q s w -> Q (c s w).
Proof. exact (fun H => H). Qed.

Lemma wp_bind {A B} (c : M W S A) (f : A -> M W S B) (Q : out W S B -> Prop) s w :
  wp c (fun o =>
    match res o with
    | Ok a =>
        wp (f a) (fun o' =>
          Q (Out (res o') (locals o') (world o') (emitted o ++ emitted o')))
          (locals o) (world o)
    | Raise e => Q (Out (Raise e) (locals o) (world o) (emitted o))
    end) s w ->
  wp (bind c f) Q s w.
Proof. unfold wp, bind. destruct (res (c s w)); auto. Qed.

Lemma wp_perform {A} (c : call A) (Q : out W S A -> Prop) s w :
  (forall r w', Q (Out r s w' [ECall c r])) -> wp (perform c) Q s w.
Proof. intros HQ. apply HQ. Qed.

Lemma wp_try_except {A} (body : M W S A) handler (Q : out W S A -> Prop) s w :
  wp body (fun o =>
    match res o with
    | Ok _ => Q o
    | Raise e =>
        if exn_is_Exception e then
          wp (handler e) (fun o' =>
            Q (Out (res o') (locals o') (world o') (emitted o ++ emitted o')))
            (locals o) (world o)
        else Q o
    end) s w ->
  wp (try_except body handler) Q s w.
Proof.
  unfold wp, try_except. destruct (res (body s w)) as [a|e]; auto.
  destruct (exn_is_Exception e); auto.
Qed.

Lemma wp_try_finally {A} (body : M W S A) cleanup (Q : out W S A -> Prop) s w :
  wp body (fun o =>
    wp cleanup (fun o' =>
      Q (Out (match res o' with Ok _ => res o | Raise e => Raise e end)
             (locals o') (world o') (emitted o ++ emitted o')))
      (locals o) (world o)) s w ->
  wp (try_finally body cleanup) Q s w.
Proof. exact (fun H => H). Qed.

Lemma wp_ret {A} (a : A) (Q : out W S A -> Prop) s w :
  Q (Out (Ok a) s w []) -> wp (ret a) Q s w.
Proof. exact (fun H => H). Qed.

Lemma wp_raise {A} (e : exn) (Q : out W S A -> Prop) s w :
  Q (Out (Raise e) s w []) -> wp (raise e) Q s w.
Proof. exact (fun H => H). Qed.

Lemma wp_emit ev (Q : out W S unit -> Prop) s w :
  Q (Out (Ok tt) s w [ev]) -> wp (emit ev) Q s w.
Proof. exact (fun H => H). Qed.

Lemma wp_get_local (Q : out W S S -> Prop) s w :
  Q (Out (Ok s) s w []) -> wp get_local Q s w.
Proof. exact (fun H => H). Qed.

Lemma wp_set_local s' (Q : out W S unit -> Prop) s w :
  Q (Out (Ok tt) s' w []) -> wp (set_local s') Q s w.
Proof. exact (fun H => H). Qed.

End Wp.

Ltac wp_simpl :=
  cbv beta iota delta [res locals world emitted]; cbn [app negb driver].

Ltac wp_step :=
  lazymatch goal with
  | |- wp ?c ?Q ?s ?w =>
      lazymatch c with
      | bind _ _ => apply wp_bind
      | try_except _ _ => apply wp_try_except
      | try_finally _ _ => apply wp_try_finally
      | perform _ => apply wp_perform; intros [?|?] ?
      | ret _ => apply wp_ret
      | raise _ => apply wp_raise
      | emit _ => apply wp_emit
      | get_local => apply wp_get_local
      | set_local _ => apply wp_set_local
      | logger_info _ =>
          let c' := eval cbv beta delta [logger_info] in c in change (wp c' Q s w)
      | logger_warning _ =>
          let c' := eval cbv beta delta [logger_warning] in c in change (wp c' Q s w)
      | logger_error _ =>
          let c' := eval cbv beta delta [logger_error] in c in change (wp c' Q s w)
      | EC_url_contains _ =>
          let c' := eval cbv beta delta [EC_url_contains] in c in change (wp c' Q s w)
      | EC_presence_of_element_located _ =>
          let c' := eval cbv beta delta [EC_presence_of_element_located] in c in
          change (wp c' Q s w)
      | py_or _ _ =>
          let c' := eval cbv beta iota delta [py_or truthy] in c in change (wp c' Q s w)
      | until_ _ _ _ =>
          let c' := eval cbv beta iota delta [until_] in c in change (wp c' Q s w)
      | self_driver _ _ =>
          let c' := eval cbv beta delta [self_driver] in c in change (wp c' Q s w)
      | LinkedInBot_init _ _ =>
          let c' := eval cbv beta delta [LinkedInBot_init] in c in change (wp c' Q s w)
      | validate_credentials _ =>
          let c' := eval cbv beta delta [validate_credentials] in c in
          change (wp c' Q s w)
      | login _ =>
          let c' := eval cbv beta delta [login] in c in change (wp c' Q s w)
      | close _ =>
          let c' := eval cbv beta delta [close] in c in change (wp c' Q s w)
      | main _ =>
          let c' := eval cbv beta zeta delta [main] in c in change (wp c' Q s w)
      | (if negb ?b then _ else _) => destruct b eqn:?
      | (if ?b then _ else _) => destruct b eqn:?
      | (match ?x with _ => _ end) => destruct x eqn:?
      end
  | |- if exn_is_Exception ?e then _ else _ =>
      first [ is_var e; destruct (exn_is_Exception e) eqn:?
            | cbn [exn_is_Exception] ]
  | |- match ?r with Ok _ => _ | Raise _ => _ end =>
      is_var r; destruct r as [?|?]
  end; wp_simpl.

(** ** Credential validation *)

Section Validate.
Context {W : Type} `{Driver W} {S : Type}.

Lemma list_ascii_of_string_app (s t : string) :
  list_ascii_of_string (s ++ t) = list_ascii_of_string s ++ list_ascii_of_string t.
Proof. induction s as [|c s IH]; simpl; [reflexivity | now rewrite IH]. Qed.

Lemma list_ascii_of_string_inj (s t : string) :
  list_ascii_of_string s = list_ascii_of_string t -> s = t.
Proof.
  intros Heq. rewrite <- (string_of_list_ascii_of_string s),
    <- (string_of_list_ascii_of_string t). now rewrite Heq.
Qed.

(** What [re.match] on the pattern of [validate_credentials] accepts. *)
Lemma re_match_email_phone (u : string) :
  re_match email_phone_pattern u = true <->
  well_formed_identifier u \/
  exists v, u = (v ++ newline)%string /\ well_formed_identifier v.
Proof.
  unfold re_match. rewrite email_phone_pattern_spec.
  unfold well_formed_identifier. split.
  - intros (l & [Hu | Hu] & Hl).
    + left. now rewrite Hu.
    + right. exists (string_of_list_ascii l). split.
      * apply list_ascii_of_string_inj.
        now rewrite list_ascii_of_string_app, list_ascii_of_string_of_list_ascii.
      * now rewrite list_ascii_of_string_of_list_ascii.
  - intros [Hu | (v & -> & Hv)].
    + exists (list_ascii_of_string u). auto.
    + exists (list_ascii_of_string v). split; [|assumption].
      right. apply list_ascii_of_string_app.
Qed.

(** The value [validate_credentials] returns; it never raises. *)
Lemma validate_credentials_res (self : LinkedInBot) (s : S) (w : W) :
  res (validate_credentials self s w) =
  Ok (re_match email_phone_pattern (username self)
      && (8 <=? String.length (password self))).
Proof.
  unfold validate_credentials. rewrite Nat.leb_antisym.
  destruct (re_match email_phone_pattern (username self)); [|reflexivity].
  destruct (String.length (password self) <? 8); reflexivity.
Qed.

(** [validate_credentials] accepts exactly the well-formed identifiers and
    those followed by one newline, with a password of 8 or more. *)
Lemma validate_credentials_iff (self : LinkedInBot) (s : S) (w : W) :
  res (validate_credentials self s w) = Ok true <->
  (well_formed_identifier (username self) \/
   exists v, username self = (v ++ newline)%string /\ well_formed_identifier v) /\
  8 <= String.length (password self).
Proof.
  rewrite validate_credentials_res. split.
  - intros [= Hb]. apply andb_true_iff in Hb as [Hm Hl].
    apply re_match_email_phone in Hm.
    apply (proj1 (Nat.leb_le 8 (String.length (password self)))) in Hl. auto.
  - intros [Hm Hl]. apply re_match_email_phone in Hm. apply Nat.leb_le in Hl.
    now rewrite Hm, Hl.
Qed.

Lemma forallb_last (p : ascii -> bool) x y l c :
  x ++ y = l ++ [c] -> y <> [] -> forallb p y = true -> p c = true.
Proof.
  intros Heq Hy Hall.
  destruct (exists_last Hy) as (y' & z & ->).
  rewrite app_assoc in Heq. apply app_inj_tail in Heq as [_ ->].
  rewrite forallb_app in Hall. apply andb_true_iff in Hall as [_ Hz].
  simpl in Hz. now rewrite andb_true_r in Hz.
Qed.

(** No identifier that ends in a newline is a phone number or an email. *)
Lemma newline_not_well_formed (v : string) :
  ~ well_formed_identifier (v ++ newline).
Proof.
  unfold well_formed_identifier. rewrite list_ascii_of_string_app. simpl.
  intros [(sign & ds & Heq & _ & [Hlo _] & Hall)
         |(loc & dom & tld & Heq & _ & _ & _ & _ & Hlen & Hall)].
  - symmetry in Heq. eapply forallb_last in Heq; [| |exact Hall].
    + discriminate.
    + intros ->. simpl in Hlo. lia.
  - symmetry in Heq.
    replace (loc ++ "@"%char :: dom ++ "."%char :: tld)
      with ((loc ++ "@"%char :: dom ++ ["."%char]) ++ tld) in Heq.
    2:{ rewrite <- app_assoc. simpl. rewrite <- app_assoc. reflexivity. }
    eapply forallb_last in Heq; [| |exact Hall].
    + discriminate.
    + intros ->. simpl in Hlen. lia.
Qed.

End Validate.

(** ** The identifiers [validate_credentials] accepts *)

Section Accepts.
Context {W : Type} `{Driver W} {S : Type}.

(** C1. The four examples of the specification evaluate as it says, but
    the equivalence fails: "1234567890" followed by a newline is neither a
    phone number nor an email address, and with the password "password"
    [validate_credentials] returns True. *)
Theorem validate_credentials_accepts_trailing_newline (s : S) (w : W) :
  let returns u p :=
    res (validate_credentials {| username := u; password := p; driver := None |} s w) in
  returns "user@example.com"%string "12345678"%string = Ok true /\
  returns "+14155552671"%string "password"%string = Ok true /\
  returns "12345"%string "password"%string = Ok false /\
  returns "user@example.com"%string "short"%string = Ok false /\
  returns ("1234567890" ++ newline)%string "password"%string = Ok true /\
  ~ well_formed_identifier ("1234567890" ++ newline).
Proof.
  cbv beta zeta. rewrite !validate_credentials_res.
  repeat split; try (vm_compute; reflexivity).
  apply newline_not_well_formed.
Qed.

(** C10. An identifier made of a well-formed phone number or email
    address followed by one newline is not well-formed, and
    [validate_credentials] returns True for it when the password has 8
    characters or more. *)
Theorem validate_credentials_newline_accepted
    (self : LinkedInBot) (s : S) (w : W) (v : string) :
  well_formed_identifier v ->
  username self = (v ++ newline)%string ->
  8 <= String.length (password self) ->
  res (validate_credentials self s w) = Ok true /\
  ~ well_formed_identifier (username self).
Proof.
  intros Hv Hu Hp. split.
  - apply validate_credentials_iff. split; [|assumption].
    right. exists v. auto.
  - rewrite Hu. apply newline_not_well_formed.
Qed.

End Accepts.

(** ** Substring test *)




(** ** Counting events *)

Lemma count_app f (l1 l2 : list event) :
  count f (l1 ++ l2) = count f l1 + count f l2.
Proof. unfold count. now rewrite List.filter_app, length_app. Qed.

Lemma count_cons f (ev : event) (l : list event) :
  count f (ev :: l) = (if f ev then 1 else 0) + count f l.
Proof. unfold count. simpl. now destruct (f ev). Qed.


(** ** [login], as [main] sees it *)

Section LoginFrame.
Context {W : Type} `{Driver W} {S : Type}.

Lemma wp_login (self : LinkedInBot) (Q : out W S bool -> Prop) s w :
  (forall r w' evs, login_post r evs -> Q (Out r s w' evs)) ->
  wp (login self) Q s w.
Proof.
  intros HQ. unfold wp.
  assert (Hp : locals (login self s w) = s /\
               login_post (res (login self s w)) (emitted (login self s w))).
  { pattern (login self s w); apply wp_run. unfold login_post.
    repeat wp_step.
    all: cbn [forallb fault_is_Exception andb].
    all: split; [reflexivity|].
    all: repeat (split; [reflexivity|]).
    all: try (intros _; solve [eauto]).
    all: rewrite ?andb_true_r; congruence. }
  destruct Hp as [Hl Hp]. specialize (HQ _ (world (login self s w)) _ Hp).
  destruct (login self s w). simpl in *. now subst.
Qed.


End LoginFrame.

Ltac wp_main_step :=
  lazymatch goal with
  | |- wp (login _) _ _ _ =>
      apply wp_login;
      let Hq := fresh "Hquit" in
      let Hs := fresh "Hstart" in
      let Hf := fresh "Hqfault" in
      let Hu := fresh "Hunexp" in
      let Hr := fresh "Hres" in
      intros ? ? ? (Hq & Hs & Hf & Hu & Hr); wp_simpl
  | |- _ => wp_step
  end.

Ltac trace_simpl :=
  repeat (progress
    (cbn [existsb forallb is_started is_quit is_fault is_quit_fault
          fault_is_Exception andb orb];
     repeat first
       [ rewrite count_app | rewrite count_cons
       | rewrite existsb_app | rewrite forallb_app ])).


Ltac split_true :=
  repeat match goal with
         | H : _ && _ = true |- _ => apply andb_true_iff in H as [? ?]
         end.


(** ** Properties of [login] and [close] *)

Section Login.
Context {W : Type} `{Driver W} {S : Type}.

(** C7. When [validate_credentials] returns False, [login] returns False
    having emitted only the validation error line: it makes no call to
    the browser, and leaves the world (hence the session) and the caller's
    variables as they were. *)
Theorem login_rejects_before_browser (self : LinkedInBot) (s : S) (w : W) :
  let o := login self s w in
  res (validate_credentials self s w) = Ok false ->
  res o = Ok false /\ locals o = s /\ world o = w /\
  count is_call (emitted o) = 0 /\
  exists msg, emitted o = [ELog ERROR msg].
Proof.
  intros o; subst o. rewrite validate_credentials_res.
  pattern (login self s w); apply wp_run.
  repeat wp_step.
  all: intros Hv.
  all: try (exfalso; rewrite Nat.leb_antisym in Hv;
            match goal with Hp : (_ <? 8) = false |- _ => rewrite Hp in Hv end;
            discriminate).
  all: repeat split; eauto.
Qed.

(** C3, amended. The [or] of the two conditions is the URL condition
    alone, whatever its right operand is: the right operand is not run at
    all.  So in every run of [login] the challenge-element condition is
    never built, and the only waits are the 10-unit wait for the username
    field and a 20-unit wait on the URL containing "feed". *)
Theorem outcome_wait_is_url_only :
  (forall (B : Type) (y : M W S (cond B)) (s : S) (w : W),
     py_or (EC_url_contains "feed") y s w =
     (c <- EC_url_contains "feed" ;; ret (Callable c)) s w) /\
  (forall (self : LinkedInBot) (s : S) (w : W),
     count is_challenge_cond (emitted (login self s w)) = 0 /\
     forallb wait_is_expected (emitted (login self s w)) = true).
Proof.
  split.
  - intros B y s w. reflexivity.
  - intros self s w.
    pattern (login self s w); apply wp_run.
    repeat wp_step.
    all: split; reflexivity.
Qed.

(** C8, amended. [close] calls [quit] exactly when a session exists.
    Without a session it only emits the completion line; with one, it
    emits the completion line after [quit] returns, and when [quit] raises
    the exception leaves [close] and no completion line is emitted. *)
Theorem close_spec (self : LinkedInBot) (s : S) (w : W) :
  match driver self with
  | None => close self s w = Out (Ok tt) s w [ELog INFO "Browser session closed"]
  | Some d =>
      match respond (Quit d) w with
      | (Ok u, w') =>
          close self s w =
          Out (Ok tt) s w' [ECall (Quit d) (Ok u); ELog INFO "Browser session closed"]
      | (Raise e, w') =>
          close self s w = Out (Raise e) s w' [ECall (Quit d) (Raise e)]
      end
  end.
Proof.
  unfold close, bind, perform, logger_info, emit, ret.
  destruct (driver self) as [d|]; [|reflexivity].
  destruct (respond (Quit d) w) as [[u|e] w']; reflexivity.
Qed.

(** C2, amended. [login] raises only when a call raised an exception that
    is not an instance of Exception.  In every run at most one call
    raises.  When none does, [login] returns a boolean.  When the one
    that does raises an instance of Exception, [login] returns False and
    logs exactly one ERROR line, "Login failed: " followed by the text of
    the exception, as its last action.  When it raises anything else,
    that exception leaves [login]: no ERROR line is logged, and the
    raising call is the last event of the run. *)
Theorem login_raises_only_non_Exception (self : LinkedInBot) (s : S) (w : W) :
  let o := login self s w in
  match faults (emitted o) with
  | [] => exists b, res o = Ok b
  | e :: more =>
      more = [] /\
      if exn_is_Exception e then
        res o = Ok false /\
        count is_error_log (emitted o) = 1 /\
        last (emitted o) = Some (ELog ERROR ("Login failed: " ++ exn_str e))
      else
        res o = Raise e /\
        count is_error_log (emitted o) = 0 /\
        last_event_is is_fault (emitted o) = true
  end.
Proof.
  intros o; subst o.
  pattern (login self s w); apply wp_run.
  repeat wp_step.
  all: cbn [faults omap list_omap fault_of].
  all: try solve [eauto].
  all: split; [reflexivity|].
  all: match goal with Hx : exn_is_Exception _ = _ |- _ => rewrite Hx end.
  all: repeat split; reflexivity.
Qed.


End Login.

(** ** Properties of [main] *)

Section Main.
Context {W : Type} `{Driver W}.

(** C4. In every run of [main] in which the agent was constructed (the
    browser started), the session is released exactly once, whatever
    happened in between: login succeeded, failed, or a call raised any
    exception. *)
Theorem main_closes_once (environ : gmap string string)
    (s : option LinkedInBot) (w : W) :
  let o := main environ s w in
  existsb is_started (emitted o) = true ->
  count is_quit (emitted o) = 1.
Proof.
  intros o; subst o.
  pattern (main environ s w); apply wp_run.
  repeat wp_main_step.
  all: trace_simpl.
  all: try discriminate.
  all: try (intros _; rewrite Hquit; reflexivity).
Qed.

End Main.

(** ** The theorems at work, on the scripted environment *)

Lemma phone_14155552671_well_formed : well_formed_identifier "+14155552671".
Proof.
  left. exists ["+"%char], (list_ascii_of_string "14155552671").
  split; [reflexivity|]. split; [right; reflexivity|].
  split; [simpl; lia | reflexivity].
Defined.

Lemma validate_credentials_newline_accepted_witness :
  let self := Sim.bot ("+14155552671" ++ newline) "password" in
  res (validate_credentials self tt (Sim.healthy "about:blank")) = Ok true /\
  ~ well_formed_identifier (username self).
Proof.
  apply (validate_credentials_newline_accepted _ _ _ "+14155552671").
  - exact phone_14155552671_well_formed.
  - reflexivity.
  - simpl. lia.
Defined.

(** C3, as stated, fails: this run reaches the outcome wait, and the
    challenge-element condition was never built. *)
Lemma challenge_condition_never_built :
  let o := login (Sim.bot "user@example.com" "password") tt
             (Sim.healthy "https://www.linkedin.com/feed/") in
  existsb is_outcome_wait (emitted o) = true /\
  count is_challenge_cond (emitted o) = 0.
Proof. vm_compute. split; reflexivity. Qed.

Lemma login_rejects_before_browser_witness :
  let o := login (Sim.bot "12345" "password") tt (Sim.healthy "about:blank") in
  res o = Ok false /\ locals o = tt /\ world o = Sim.healthy "about:blank" /\
  count is_call (emitted o) = 0 /\
  exists msg, emitted o = [ELog ERROR msg].
Proof.
  apply (login_rejects_before_browser (Sim.bot "12345" "password") tt
           (Sim.healthy "about:blank")).
  vm_compute. reflexivity.
Defined.

(** C8, as stated, fails: [quit] raises, and [close] emits no completion
    line. *)
Lemma close_silent_when_quit_raises :
  let o := close (Sim.bot "user@example.com" "password") tt
             (Sim.failing 0 Sim.TimeoutException "about:blank") in
  res o = Raise Sim.TimeoutException /\
  emitted o = [ECall (Quit 1) (Raise Sim.TimeoutException)].
Proof. vm_compute. split; reflexivity. Qed.

Definition unset : gmap string string := ∅.

Definition username_set : gmap string string :=
  {[ "LINKEDIN_USERNAME"%string := "user@example.com"%string ]}.

(** The outcome wait, the twelfth call of the run, times out. *)
Lemma main_closes_once_witness :
  count is_quit
    (emitted (main username_set None
                (Sim.failing 11 Sim.TimeoutException "https://www.linkedin.com/login")))
  = 1.
Proof.
  apply (main_closes_once username_set None
           (Sim.failing 11 Sim.TimeoutException "https://www.linkedin.com/login")).
  vm_compute. reflexivity.
Defined.


(** ** [login], [close] and the constructor: further properties *)

Section LoginMore.
Context {W : Type} `{Driver W} {S : Type}.

(** X5. On every path (success, failure, fault) [login] leaves the
    session open: it never calls [quit], never launches a browser, never
    sleeps, and leaves its caller's variables alone. *)
Theorem login_keeps_session (self : LinkedInBot) (s : S) (w : W) :
  let o := login self s w in
  locals o = s /\
  count is_quit (emitted o) = 0 /\
  count is_launch (emitted o) = 0 /\
  count is_sleep (emitted o) = 0.
Proof.
  intros o; subst o.
  pattern (login self s w); apply wp_run.
  repeat wp_step.
  all: repeat split; reflexivity.
Qed.

(** X7. When a call raised (a timeout of the outcome wait included),
    [login] does not return True, never got a URL from the browser, and
    logs neither the success line nor the "additional verification"
    warning. *)
Theorem login_fault_gives_no_verdict (self : LinkedInBot) (s : S) (w : W) :
  let o := login self s w in
  existsb is_fault (emitted o) = true ->
  res o <> Ok true /\
  urls_read (emitted o) = [] /\
  count is_success_log (emitted o) = 0 /\
  count is_verification_warning (emitted o) = 0.
Proof.
  intros o; subst o.
  pattern (login self s w); apply wp_run.
  repeat wp_step.
  all: cbn [existsb is_fault orb].
  all: try discriminate.
  all: intros _; repeat split; try reflexivity; discriminate.
Qed.

(** X8. A fault that is not an instance of Exception leaves [login]: the
    call raises an exception that is not an Exception instance, no error
    line is logged, and the raising call is the last event. *)
Theorem login_reraises_non_Exception (self : LinkedInBot) (s : S) (w : W) :
  let o := login self s w in
  forallb fault_is_Exception (emitted o) = false ->
  (exists e, res o = Raise e /\ exn_is_Exception e = false) /\
  count is_error_log (emitted o) = 0 /\
  last_event_is is_fault (emitted o) = true.
Proof.
  intros o; subst o.
  pattern (login self s w); apply wp_run.
  repeat wp_step.
  all: cbn [forallb fault_is_Exception andb].
  all: try discriminate.
  all: rewrite ?andb_true_r.
  all: try congruence.
  all: intros _; split; [eauto | split; reflexivity].
Qed.

(** X6. [login] types the username first and the password second, each
    at most once, and only after the login page was loaded; it navigates
    at most once, and the first call that raises is the last call it
    makes. *)
Theorem login_types_in_order (self : LinkedInBot) (s : S) (w : W) :
  let o := login self s w in
  keys_sent (emitted o) `prefix_of` [username self; password self] /\
  count is_fault (emitted o) <= 1 /\
  count is_navigation (emitted o) <= 1 /\
  (keys_sent (emitted o) <> [] ->
   first_call_is is_login_page_loaded (emitted o) = true).
Proof.
  intros o; subst o.
  pattern (login self s w); apply wp_run.
  repeat wp_step.
  all: split; [eexists; reflexivity|].
  all: split; [unfold count; simpl; lia|].
  all: split; [unfold count; simpl; lia|].
  all: try (intros _; reflexivity).
  all: intros Hk; exfalso; apply Hk; reflexivity.
Qed.


(** X10. [close] does not forget the session: when a first [close]
    returned, a second [close] calls [quit] again on the same session. *)
Theorem close_twice_quits_twice (self : LinkedInBot) (s : S) (w : W) (d : handle) :
  driver self = Some d ->
  res (close self s w) = Ok tt ->
  quit_handles (emitted ((close self ;; close self) s w)) = [d; d].
Proof.
  intros Hd. unfold close, bind, perform, logger_info, emit. rewrite Hd.
  destruct (respond (Quit d) w) as [[u|e] w1]; simpl; [|discriminate].
  intros _.
  destruct (respond (Quit d) w1) as [[u'|e'] w2]; reflexivity.
Qed.

(** X4. The constructor catches nothing and starts the browser only after
    the driver was installed: it either returns an agent that holds the
    given credentials and the session the browser start returned, started
    on the installed driver with the five fixed arguments, or raises what
    the installation raised without starting the browser, or raises what
    the start raised. *)
Theorem LinkedInBot_init_spec (u p : string) (s : S) (w : W) :
  let o := LinkedInBot_init u p s w in
  locals o = s /\
  match res o with
  | Ok b =>
      username b = u /\ password b = p /\
      exists path d,
        driver b = Some d /\
        emitted o = [ECall ChromeDriverInstall (Ok path);
                     ECall (ChromeStart path chrome_arguments) (Ok d)]
  | Raise e =>
      emitted o = [ECall ChromeDriverInstall (Raise e)] \/
      exists path,
        emitted o = [ECall ChromeDriverInstall (Ok path);
                     ECall (ChromeStart path chrome_arguments) (Raise e)]
  end.
Proof.
  intros o; subst o. unfold LinkedInBot_init, bind, perform, ret.
  destruct (respond ChromeDriverInstall w) as [[path|e] w1]; simpl; [|auto].
  destruct (respond (ChromeStart path chrome_arguments) w1) as [[d|e] w2]; simpl.
  - repeat split; eauto.
  - split; [reflexivity|]. right. eauto.
Qed.

End LoginMore.

(** ** More on credential validation *)

Lemma forallb_weaken (p q : ascii -> bool) (l : list ascii) :
  (forall c, p c = true -> q c = true) ->
  forallb p l = true -> forallb q l = true.
Proof.
  intros Hpq. induction l as [|c l IH]; simpl; [reflexivity|].
  rewrite !andb_true_iff. intros [Hc Hl]. auto.
Qed.

Lemma local_class_identifier_char c :
  local_class c = true -> identifier_char c = true.
Proof. unfold identifier_char. now intros ->. Qed.

Lemma digit_identifier_char c : digit c = true -> identifier_char c = true.
Proof.
  intros Hc. apply local_class_identifier_char. unfold local_class.
  rewrite Hc. now rewrite orb_true_r.
Qed.

Lemma alpha_identifier_char c : alpha c = true -> identifier_char c = true.
Proof.
  intros Hc. apply local_class_identifier_char. unfold local_class.
  now rewrite Hc.
Qed.

Lemma domain_class_identifier_char c :
  domain_class c = true -> identifier_char c = true.
Proof.
  unfold domain_class. rewrite !orb_true_iff.
  intros [[Hc|Hc]|Hc].
  - now apply alpha_identifier_char.
  - now apply digit_identifier_char.
  - apply local_class_identifier_char. unfold local_class, one_of in *.
    simpl in *. rewrite !orb_true_iff in *. intuition.
Qed.

Lemma is_phone_shape (l : list ascii) :
  is_phone l -> forallb identifier_char l = true /\ 10 <= length l.
Proof.
  intros (sign & ds & -> & Hsign & [Hlo _] & Hall). split.
  - rewrite forallb_app. apply andb_true_iff. split.
    + destruct Hsign as [-> | ->]; reflexivity.
    + eapply forallb_weaken; [apply digit_identifier_char | assumption].
  - rewrite length_app. lia.
Qed.

Lemma is_email_shape (l : list ascii) :
  is_email l -> forallb identifier_char l = true /\ 6 <= length l.
Proof.
  intros (loc & dom & tld & -> & Hl1 & Hl2 & Hd1 & Hd2 & Ht1 & Ht2). split.
  - rewrite forallb_app. simpl. rewrite forallb_app. simpl.
    rewrite (forallb_weaken _ _ _ local_class_identifier_char Hl2),
      (forallb_weaken _ _ _ domain_class_identifier_char Hd2),
      (forallb_weaken _ _ _ alpha_identifier_char Ht2).
    reflexivity.
  - rewrite length_app. simpl. rewrite length_app. simpl.
    destruct loc; [congruence|]. destruct dom; [congruence|]. simpl. lia.
Qed.

Lemma length_list_ascii_of_string (s : string) :
  length (list_ascii_of_string s) = String.length s.
Proof. induction s as [|c s IH]; simpl; congruence. Qed.

Lemma accepted_identifier_shape (u : string) :
  accepted_identifier u ->
  forallb identifier_char (list_ascii_of_string u) = true /\
  6 <= String.length u.
Proof.
  assert (Hwf : forall v, well_formed_identifier v ->
            forallb identifier_char (list_ascii_of_string v) = true /\
            6 <= String.length v).
  { intros v [Hv|Hv]; [apply is_phone_shape in Hv | apply is_email_shape in Hv];
      rewrite length_list_ascii_of_string in Hv; destruct Hv; split; auto; lia. }
  intros [Hu | (v & -> & Hv)]; [auto|].
  destruct (Hwf v Hv) as [Hc Hl]. split.
  - rewrite list_ascii_of_string_app, forallb_app, Hc. reflexivity.
  - rewrite <- length_list_ascii_of_string, list_ascii_of_string_app, length_app,
      length_list_ascii_of_string. lia.
Qed.

Section ValidateMore.
Context {W : Type} `{Driver W} {S : Type}.

(** X2. [validate_credentials] makes no call and changes nothing.  It
    logs nothing when it returns True; when the identifier is not
    accepted it logs only the format error, whatever the password is; when
    the identifier is accepted and the password is shorter than 8 it logs
    only "Password too short". *)
Theorem validate_credentials_reports_first_failure
    (self : LinkedInBot) (s : S) (w : W) :
  let o := validate_credentials self s w in
  locals o = s /\ world o = w /\ count is_call (emitted o) = 0 /\
  (res o = Ok true -> emitted o = []) /\
  (~ accepted_identifier (username self) ->
   emitted o = [ELog ERROR "Invalid email or phone number format"]) /\
  (accepted_identifier (username self) ->
   String.length (password self) < 8 ->
   emitted o = [ELog ERROR "Password too short"]).
Proof.
  intros o; subst o.
  pose proof (re_match_email_phone (username self)) as Hre.
  fold (accepted_identifier (username self)) in Hre.
  unfold validate_credentials.
  destruct (re_match email_phone_pattern (username self)).
  - destruct (Nat.ltb_spec (String.length (password self)) 8) as [Hlt|Hge].
    + repeat split; try reflexivity; try discriminate.
      intros Hn. exfalso. apply Hn, Hre. reflexivity.
    + repeat split; try reflexivity.
      * intros Hn. exfalso. apply Hn, Hre. reflexivity.
      * intros _ Hlt. lia.
  - repeat split; try reflexivity; try discriminate.
    intros Hacc. apply Hre in Hacc. discriminate.
Qed.

(** X1. [validate_credentials] always returns a boolean.  It returns True
    for every identifier that is a well-formed phone number or email
    address, possibly followed by one newline, with a password of 8
    characters or more, and never with a shorter password.  For an
    identifier of ASCII characters it returns True exactly in that
    case. *)
Theorem validate_credentials_exact (self : LinkedInBot) (s : S) (w : W) :
  let o := validate_credentials self s w in
  (res o = Ok true \/ res o = Ok false) /\
  (accepted_identifier (username self) /\ 8 <= String.length (password self) ->
   res o = Ok true) /\
  (String.length (password self) < 8 -> res o = Ok false) /\
  (forallb is_ascii (list_ascii_of_string (username self)) = true ->
   (res o = Ok true <->
    accepted_identifier (username self) /\ 8 <= String.length (password self))).
Proof.
  intros o; subst o.
  pose proof (validate_credentials_iff self s w) as Hiff.
  assert (Hb : res (validate_credentials self s w) = Ok true \/
               res (validate_credentials self s w) = Ok false).
  { rewrite validate_credentials_res. destruct (_ && _); auto. }
  split; [exact Hb|]. split; [apply Hiff|]. split; [|intros _; exact Hiff].
  intros Hlt. destruct Hb as [Hb|Hb]; [|exact Hb].
  apply Hiff in Hb. lia.
Qed.

(** X3. When [validate_credentials] returns True, every ASCII character
    of the identifier is a letter, a digit, one of . _ % + - @ or a
    newline, the identifier has at least 6 characters and the password at
    least 8: the empty identifier and one with a space are rejected. *)
Theorem validate_credentials_alphabet (self : LinkedInBot) (s : S) (w : W) :
  res (validate_credentials self s w) = Ok true ->
  forallb (fun c => negb (is_ascii c) || identifier_char c)
    (list_ascii_of_string (username self)) = true /\
  6 <= String.length (username self) /\
  8 <= String.length (password self).
Proof.
  intros Hv. apply validate_credentials_iff in Hv as [Hacc Hp].
  destruct (accepted_identifier_shape (username self) Hacc) as [Hc Hl].
  split; [|auto].
  revert Hc. apply forallb_weaken. intros c ->. apply orb_true_r.
Qed.

End ValidateMore.

(** ** [login], summarised for [main] *)

Section LoginSummary.
Context {W : Type} `{Driver W} {S : Type}.

Lemma login_summary_holds (self : LinkedInBot) (s : S) (w : W) :
  locals (login self s w) = s /\
  login_summary self (res (login self s w)) (emitted (login self s w)).
Proof.
  pattern (login self s w); apply wp_run. unfold login_summary.
  repeat wp_step.
  all: cbn [forallb fault_is_Exception existsb is_fault andb orb].
  all: split; [reflexivity|].
  all: do 6 (split; [reflexivity|]).
  all: rewrite ?andb_true_r.
  all: split; [first [congruence | intros _; eauto]|].
  all: split; [first [congruence | discriminate | intros _; eauto]|].
  all: split; [first [discriminate | congruence]|].
  all: split; [reflexivity|].
  all: split; [first [congruence | intros _; repeat split; reflexivity]|].
  all: first [congruence | discriminate | intros _ _ _ _; split; reflexivity
             | intros _ Hp; exfalso;
               match goal with
               | Hs : (_ <? 8) = true |- _ => apply Nat.ltb_lt in Hs; lia
               end
             | idtac].
  all: try (intros _ _ Hd; congruence).
Qed.

Lemma wp_login_summary (self : LinkedInBot) (Q : out W S bool -> Prop) s w :
  (forall r w' evs, login_summary self r evs -> Q (Out r s w' evs)) ->
  wp (login self) Q s w.
Proof.
  intros HQ. unfold wp.
  destruct (login_summary_holds self s w) as [Hl Hp].
  specialize (HQ _ (world (login self s w)) _ Hp).
  destruct (login self s w). simpl in *. now subst.
Qed.

End LoginSummary.

Ltac wp_main_step' :=
  lazymatch goal with
  | |- wp (login _) _ _ _ =>
      apply wp_login_summary;
      let Hsum := fresh "Hsum" in
      intros ? ? ? Hsum; wp_simpl
  | |- _ => wp_step
  end.

Section MainMore.
Context {W : Type} `{Driver W}.

(** X13. [main] does not swallow a fault that is not an instance of
    Exception: a run with such a fault ends by raising. *)
Theorem main_reraises_non_Exception (environ : gmap string string)
    (s : option LinkedInBot) (w : W) :
  let o := main environ s w in
  forallb fault_is_Exception (emitted o) = false ->
  exists e, res o = Raise e.
Proof.
  intros o; subst o.
  pattern (main environ s w); apply wp_run.
  repeat wp_main_step'.
  all: try match goal with
       | Hsum : login_summary _ _ _ |- _ =>
           destruct Hsum as (_ & _ & _ & _ & _ & _ & HE & HN & HX & _)
       end.
  all: trace_simpl.
  all: rewrite ?andb_true_r.
  all: intros Hf; try solve [eauto]; exfalso.
  all: repeat match goal with
         | Hx : exn_is_Exception ?e = true |- _ => rewrite Hx in Hf
         end.
  all: rewrite ?andb_true_r in Hf; try discriminate.
  all: try (destruct (HN Hf) as [? ?]; discriminate).
  all: specialize (HX _ eq_refl); congruence.
Qed.

(** X11. [main] releases exactly the session it started: the sessions
    [quit] is called on are those the browser start returned (none, or the
    one); and when the browser was started, [quit] is the last call of the
    run. *)
Theorem main_releases_what_it_started (environ : gmap string string)
    (s : option LinkedInBot) (w : W) :
  let o := main environ s w in
  quit_handles (emitted o) = started_handles (emitted o) /\
  (existsb is_started (emitted o) = true ->
   last_call_is is_quit (emitted o) = true).
Proof.
  intros o; subst o.
  pattern (main environ s w); apply wp_run.
  repeat wp_main_step'.
  all: try match goal with
       | Hsum : login_summary _ _ _ |- _ =>
           destruct Hsum as (_ & _ & _ & Hsh & Hqh & _ & _ & _ & _ & Hst & _)
       end.
  all: unfold quit_handles, started_handles, last_call_is, calls in *.
  all: trace_simpl.
  all: repeat (rewrite ?omap_app, ?List.filter_app; simpl).
  all: rewrite ?Hsh, ?Hqh, ?Hst.
  all: simpl.
  all: split; [reflexivity|].
  all: try discriminate.
  all: intros _; rewrite ?app_nil_r, app_comm_cons, last_snoc; reflexivity.
Qed.

(** X12. [main] sleeps exactly when the success line was logged, never
    both sleeps and logs the "Login unsuccessful" warning, and does one of
    the two whenever the browser was started and the faults of the run are
    instances of Exception. *)
Theorem main_sleeps_iff_logged_in (environ : gmap string string)
    (s : option LinkedInBot) (w : W) :
  let o := main environ s w in
  count is_sleep (emitted o) = count is_success_log (emitted o) /\
  count is_sleep (emitted o) + count is_unsuccessful_warning (emitted o) <= 1 /\
  (existsb is_started (emitted o) = true ->
   forallb fault_is_Exception (emitted o) = true ->
   count is_sleep (emitted o) + count is_unsuccessful_warning (emitted o) = 1).
Proof.
  intros o; subst o.
  pattern (main environ s w); apply wp_run.
  repeat wp_main_step'.
  all: try match goal with
       | Hsum : login_summary _ _ _ |- _ =>
           destruct Hsum as (Hsl & Hun & _ & _ & _ & Hsu & HE & _ & HX & Hst & _)
       end.
  all: trace_simpl.
  all: rewrite ?andb_true_r, ?Hsl, ?Hun, ?Hsu, ?Hst.
  all: unfold count; simpl.
  all: split; [reflexivity|].
  all: split; [lia|].
  all: try discriminate.
  all: try (intros _ _; reflexivity).
  all: intros _ Hf; exfalso; try (apply andb_true_iff in Hf as [Hf _]).
  all: destruct (HE Hf) as [? ?]; discriminate.
Qed.

(** X14. With LINKEDIN_USERNAME unset, [main] never opens the login page,
    types nothing and does not sleep: the placeholder is rejected by the
    validation; when the browser was started the "Login unsuccessful"
    warning is logged once. *)
Theorem main_unset_username_never_navigates (environ : gmap string string)
    (s : option LinkedInBot) (w : W) :
  let o := main environ s w in
  environ !! "LINKEDIN_USERNAME"%string = None ->
  count is_navigation (emitted o) = 0 /\
  keys_sent (emitted o) = [] /\
  count is_sleep (emitted o) = 0 /\
  (existsb is_started (emitted o) = true ->
   count is_unsuccessful_warning (emitted o) = 1).
Proof.
  intros o Hu; subst o.
  assert (HU : os_getenv environ "LINKEDIN_USERNAME" "your_email_or_phone"
               = "your_email_or_phone"%string).
  { unfold os_getenv. now rewrite Hu. }
  assert (Hre : re_match email_phone_pattern "your_email_or_phone" = false).
  { vm_compute. reflexivity. }
  pattern (main environ s w); apply wp_run.
  wp_main_step'. rewrite HU.
  repeat wp_main_step'.
  all: try match goal with
       | Hsum : login_summary _ _ _ |- _ =>
           destruct Hsum as (Hsl & Hun & _ & _ & _ & _ & _ & _ & _ & Hst & Hrej & _);
           destruct (Hrej Hre) as (Hr & Hnav & Hkeys)
       end.
  all: try discriminate.
  all: unfold keys_sent in *.
  all: trace_simpl.
  all: repeat (rewrite ?omap_app; simpl).
  all: rewrite ?Hsl, ?Hun, ?Hst, ?Hnav, ?Hkeys.
  all: unfold count; simpl.
  all: repeat split; try reflexivity; try discriminate.
Qed.

(** X15. With LINKEDIN_USERNAME set to a well-formed identifier and
    LINKEDIN_PASSWORD unset, a run of [main] without fault opens the login
    page once and types the identifier, then the placeholder
    "your_password", into the form. *)
Theorem main_unset_password_types_placeholder (environ : gmap string string)
    (s : option LinkedInBot) (w : W) (u : string) :
  let o := main environ s w in
  environ !! "LINKEDIN_USERNAME"%string = Some u ->
  environ !! "LINKEDIN_PASSWORD"%string = None ->
  well_formed_identifier u ->
  existsb is_fault (emitted o) = false ->
  count is_navigation (emitted o) = 1 /\
  keys_sent (emitted o) = [u; "your_password"%string].
Proof.
  intros o Hu Hp Hwf; subst o.
  assert (HU : os_getenv environ "LINKEDIN_USERNAME" "your_email_or_phone" = u).
  { unfold os_getenv. now rewrite Hu. }
  assert (HP : os_getenv environ "LINKEDIN_PASSWORD" "your_password"
               = "your_password"%string).
  { unfold os_getenv. now rewrite Hp. }
  assert (Hre : re_match email_phone_pattern u = true).
  { apply re_match_email_phone. now left. }
  pattern (main environ s w); apply wp_run.
  wp_main_step'. rewrite HU, HP.
  repeat wp_main_step'.
  all: try match goal with
       | Hsum : login_summary _ _ _ |- _ =>
           destruct Hsum as (_ & _ & _ & _ & _ & _ & _ & _ & _ & _ & _ & Hacc);
           specialize (Hacc Hre)
       end.
  all: unfold keys_sent in *.
  all: trace_simpl.
  all: repeat (rewrite ?omap_app; simpl).
  all: rewrite ?orb_true_r, ?orb_false_r, ?app_nil_r.
  all: try discriminate.
  all: intros Hnf; simpl in Hacc.
  all: destruct Hacc as [Hnav Hkeys]; [lia | discriminate | assumption |].
  all: rewrite Hnav, Hkeys; split; reflexivity.
Qed.

End MainMore.

(** ** [login], as to faults, for [main] *)

Section LoginQuiet.
Context {W : Type} `{Driver W} {S : Type}.



End LoginQuiet.


(** ** [main]: what it logs, what leaves it, and the credentials it uses *)

Section MainFaults.
Context {W : Type} `{Driver W}.


(** C9. [main] builds the agent from the two environment variables, each
    with its placeholder: the first action of every run is the
    installation of the driver, and when the browser started on a session
    [d], the agent held by [main] has as username the value of
    LINKEDIN_USERNAME, or "your_email_or_phone" when it is unset, as
    password the value of LINKEDIN_PASSWORD, or "your_password" when it is
    unset, and [d] as session; when the browser did not start [main] holds
    no agent.  In a run without fault the browser started, and when the
    username is an accepted identifier and the password has 8 characters
    or more, these two texts, in this order, are what is typed into the
    form.  With a variable unset, [main] runs as with the variable set
    to its placeholder. *)
Theorem main_placeholder_defaults (environ : gmap string string)
    (s : option LinkedInBot) (w : W) :
  let o := main environ s w in
  let USERNAME := match environ !! "LINKEDIN_USERNAME"%string with
                  | Some v => v
                  | None => "your_email_or_phone"%string
                  end in
  let PASSWORD := match environ !! "LINKEDIN_PASSWORD"%string with
                  | Some v => v
                  | None => "your_password"%string
                  end in
  (exists r evs, emitted o = ECall ChromeDriverInstall r :: evs) /\
  locals o = match started_handles (emitted o) with
             | d :: _ => Some {| username := USERNAME; password := PASSWORD;
                                 driver := Some d |}
             | [] => None
             end /\
  (existsb is_fault (emitted o) = false ->
   length (started_handles (emitted o)) = 1 /\
   (accepted_identifier USERNAME -> 8 <= String.length PASSWORD ->
    keys_sent (emitted o) = [USERNAME; PASSWORD])) /\
  (environ !! "LINKEDIN_USERNAME"%string = None ->
   main environ s w =
   main (<["LINKEDIN_USERNAME"%string := "your_email_or_phone"%string]> environ) s w) /\
  (environ !! "LINKEDIN_PASSWORD"%string = None ->
   main environ s w =
   main (<["LINKEDIN_PASSWORD"%string := "your_password"%string]> environ) s w).
Proof.
  intros o U P; subst o.
  assert (HU : os_getenv environ "LINKEDIN_USERNAME" "your_email_or_phone" = U).
  { unfold os_getenv, U. destruct (environ !! _); reflexivity. }
  assert (HP : os_getenv environ "LINKEDIN_PASSWORD" "your_password" = P).
  { unfold os_getenv, P. destruct (environ !! _); reflexivity. }
  clearbody U P.
  split; [|split; [|split; [|split]]].
  - pattern (main environ s w); apply wp_run.
    repeat wp_main_step.
    all: do 2 eexists; reflexivity.
  - pattern (main environ s w); apply wp_run.
    wp_main_step'. rewrite HU, HP.
    repeat wp_main_step'.
    all: try match goal with
         | Hsum : login_summary _ _ _ |- _ =>
             destruct Hsum as (_ & _ & _ & Hsh & _)
         end.
    all: unfold started_handles in *.
    all: repeat (rewrite ?omap_app; simpl).
    all: rewrite ?Hsh; reflexivity.
  - pattern (main environ s w); apply wp_run.
    wp_main_step'. rewrite HU, HP.
    repeat wp_main_step'.
    all: try match goal with
         | Hsum : login_summary _ _ _ |- _ =>
             destruct Hsum as (_ & _ & _ & Hsh & _ & _ & _ & _ & _ & _ & _ & Hacc)
         end.
    all: unfold started_handles, keys_sent in *.
    all: trace_simpl.
    all: repeat (rewrite ?omap_app; simpl).
    all: rewrite ?orb_true_r, ?orb_false_r, ?app_nil_r, ?Hsh.
    all: try discriminate.
    all: intros Hnf; split; [reflexivity|]; intros Hre Hlen.
    all: apply re_match_email_phone in Hre.
    all: destruct (Hacc Hre Hlen ltac:(discriminate) Hnf) as [_ Hkeys].
    all: rewrite Hkeys; reflexivity.
  - intros Hu. unfold main, os_getenv.
    rewrite lookup_insert_eq, lookup_insert_ne, Hu by discriminate. reflexivity.
  - intros Hp. unfold main, os_getenv.
    rewrite lookup_insert_eq, lookup_insert_ne, Hp by discriminate. reflexivity.
Qed.

End MainFaults.

(** ** The further properties at work, on the scripted environment *)

Lemma email_user_example_com_well_formed : well_formed_identifier "user@example.com".
Proof.
  right. exists (list_ascii_of_string "user"), (list_ascii_of_string "example"),
    (list_ascii_of_string "com").
  split; [reflexivity|]. split; [discriminate|]. split; [reflexivity|].
  split; [discriminate|]. split; [reflexivity|].
  split; [simpl; lia | reflexivity].
Defined.

(** The outcome wait, the tenth call of [login], times out. *)
Lemma login_fault_gives_no_verdict_witness :
  let o := login (Sim.bot "user@example.com" "password") tt
             (Sim.failing 9 Sim.TimeoutException "https://www.linkedin.com/feed/") in
  res o <> Ok true /\
  urls_read (emitted o) = [] /\
  count is_success_log (emitted o) = 0 /\
  count is_verification_warning (emitted o) = 0.
Proof.
  apply (login_fault_gives_no_verdict (Sim.bot "user@example.com" "password") tt
           (Sim.failing 9 Sim.TimeoutException "https://www.linkedin.com/feed/")).
  vm_compute. reflexivity.
Defined.

(** The entry of the username is interrupted from the keyboard. *)
Lemma login_reraises_non_Exception_witness :
  let o := login (Sim.bot "user@example.com" "password") tt
             (Sim.failing 3 Sim.KeyboardInterrupt "https://www.linkedin.com/login") in
  (exists e, res o = Raise e /\ exn_is_Exception e = false) /\
  count is_error_log (emitted o) = 0 /\
  last_event_is is_fault (emitted o) = true.
Proof.
  apply (login_reraises_non_Exception (Sim.bot "user@example.com" "password") tt
           (Sim.failing 3 Sim.KeyboardInterrupt "https://www.linkedin.com/login")).
  vm_compute. reflexivity.
Defined.


Lemma close_twice_quits_twice_witness :
  let self := Sim.bot "user@example.com" "password" in
  quit_handles (emitted ((close self ;; close self) tt (Sim.healthy "about:blank")))
  = [1; 1].
Proof.
  apply (close_twice_quits_twice (Sim.bot "user@example.com" "password") tt
           (Sim.healthy "about:blank") 1).
  - reflexivity.
  - vm_compute. reflexivity.
Defined.

(** The wait for the username field, the fourth call of the run, is
    interrupted from the keyboard. *)
Lemma main_reraises_non_Exception_witness :
  exists e,
    res (main username_set None
           (Sim.failing 3 Sim.KeyboardInterrupt "https://www.linkedin.com/login"))
    = Raise e.
Proof.
  apply (main_reraises_non_Exception username_set None
           (Sim.failing 3 Sim.KeyboardInterrupt "https://www.linkedin.com/login")).
  vm_compute. reflexivity.
Defined.

Lemma main_unset_username_never_navigates_witness :
  let o := main unset None (Sim.healthy "about:blank") in
  count is_navigation (emitted o) = 0 /\
  keys_sent (emitted o) = [] /\
  count is_sleep (emitted o) = 0 /\
  (existsb is_started (emitted o) = true ->
   count is_unsuccessful_warning (emitted o) = 1).
Proof.
  apply (main_unset_username_never_navigates unset None (Sim.healthy "about:blank")).
  reflexivity.
Defined.

Lemma main_unset_password_types_placeholder_witness :
  let o := main username_set None (Sim.healthy "https://www.linkedin.com/feed/") in
  count is_navigation (emitted o) = 1 /\
  keys_sent (emitted o) = ["user@example.com"; "your_password"]%string.
Proof.
  apply (main_unset_password_types_placeholder username_set None
           (Sim.healthy "https://www.linkedin.com/feed/") "user@example.com").
  - reflexivity.
  - reflexivity.
  - exact email_user_example_com_well_formed.
  - vm_compute. reflexivity.
Defined.

(** ** Faults, verdicts and credentials at work, on the scripted environment *)

(** C2, as stated, fails: the outcome wait, the tenth call of this run,
    is interrupted from the keyboard; KeyboardInterrupt is not an instance
    of Exception, so it leaves [login], and no line is logged. *)
Lemma login_raises_on_KeyboardInterrupt :
  let o := login (Sim.bot "user@example.com" "password") tt
             (Sim.failing 9 Sim.KeyboardInterrupt "https://www.linkedin.com/login") in
  res o = Raise Sim.KeyboardInterrupt /\
  last (emitted o) =
    Some (ECall (Until 1 20 (UrlContains "feed")) (Raise Sim.KeyboardInterrupt)) /\
  count is_error_log (emitted o) = 0.
Proof. vm_compute. repeat split; reflexivity. Qed.



(** The username is set, the password is not. *)
Lemma main_placeholder_defaults_witness :
  let o := main username_set None (Sim.healthy "https://www.linkedin.com/feed/") in
  locals o = Some {| username := "user@example.com";
                     password := "your_password";
                     driver := Some 1 |} /\
  keys_sent (emitted o) = ["user@example.com"; "your_password"]%string.
Proof.
  intros o; subst o.
  pose proof (main_placeholder_defaults username_set None
                (Sim.healthy "https://www.linkedin.com/feed/")) as Hm.
  cbv zeta in Hm. destruct Hm as (_ & Hl & Hk & _).
  split.
  - rewrite Hl. vm_compute. reflexivity.
  - destruct Hk as [_ Hk]; [vm_compute; reflexivity|].
    rewrite Hk.
    + vm_compute. reflexivity.
    + left. exact email_user_example_com_well_formed.
    + vm_compute. lia.
Defined.

Lemma validate_credentials_alphabet_witness :
  let self := Sim.bot "user@example.com" "password" in
  forallb (fun c => negb (is_ascii c) || identifier_char c)
    (list_ascii_of_string (username self)) = true /\
  6 <= String.length (username self) /\
  8 <= String.length (password self).
Proof.
  apply (validate_credentials_alphabet (Sim.bot "user@example.com" "password") tt
           (Sim.healthy "about:blank")).
  vm_compute. reflexivity.
Defined.
